(** * GrowiBacK: the contact-form backend of [app.py]

    A shallow embedding of the two request handlers of [app.py]
    ([create_contact], [get_contacts]) and of the collaborators they talk to
    (the parsed request body, the connection pool, the [contacts] table),
    followed by the properties of the handlers.

    Conventions of the embedding.
    - A Python [str] is a [string]; each [ascii] is read as the code point
      of the same number (the Latin-1 range of Unicode), and [str.strip],
      [str.lower] and [in] are written out for that range.
    - A parsed JSON value is a [json]; a JSON object is a [gmap] from keys to
      values, as [json.loads] builds a [dict].
    - Handler bodies run in a state-and-exception monad over [World]; the
      [try ... except Exception] of each handler is [create_contact] and
      [get_contacts] themselves.
    - What the outside decides during one request (the clock of the database
      server, whether the pool or the server fails) is an [Env]. *)

From Stdlib Require Import ZArith String Ascii List Lia Sorting.Sorted
  Sorting.Permutation Floats.PrimFloat.
From stdpp Require Import base option gmap strings pretty.

Set Warnings "-register-all".

(** ** Python strings *)

Module Str.

(** [str.isspace] on one character, for the code points below 256:
    U+0009..U+000D, U+001C..U+0020, U+0085 and U+00A0. *)
Definition is_space (c : ascii) : bool :=
  let n := N_of_ascii c in
  ((9 <=? n) && (n <=? 13) || (28 <=? n) && (n <=? 32)
   || (n =? 133) || (n =? 160))%N.

Fixpoint lstrip (s : string) : string :=
  match s with
  | EmptyString => EmptyString
  | String c s' => if is_space c then lstrip s' else s
  end.

Fixpoint rstrip (s : string) : string :=
  match s with
  | EmptyString => EmptyString
  | String c s' =>
      match rstrip s' with
      | EmptyString => if is_space c then EmptyString
                       else String c EmptyString
      | r => String c r
      end
  end.

(** [s.strip()] *)
Definition strip (s : string) : string := rstrip (lstrip s).

(** [str.lower] on one character, for the code points below 256: the
    letters A..Z, U+00C0..U+00D6 and U+00D8..U+00DE move up by 32. *)
Definition lower_char (c : ascii) : ascii :=
  let n := N_of_ascii c in
  if ((65 <=? n) && (n <=? 90) || (192 <=? n) && (n <=? 214)
      || (216 <=? n) && (n <=? 222))%N
  then ascii_of_N (n + 32) else c.

(** [s.lower()] *)
Fixpoint lower (s : string) : string :=
  match s with
  | EmptyString => EmptyString
  | String c s' => String (lower_char c) (lower s')
  end.

(** [needle in s] for two strings: [needle] occurs as a substring. *)
Fixpoint contains (needle s : string) : bool :=
  String.prefix needle s
  || match s with
     | EmptyString => false
     | String _ s' => contains needle s'
     end.

(** Length of the UTF-8 encoding (code points below 128 take one byte,
    the others of the range two). *)
Fixpoint utf8_length (s : string) : N :=
  match s with
  | EmptyString => 0
  | String c s' =>
      (if N_of_ascii c <? 128 then 1 else 2) + utf8_length s'
  end%N.

End Str.

(** ** Parsed JSON and the Python view of it *)

Inductive json : Type :=
| JNull
| JBool (b : bool)
| JInt (z : Z)
| JFloat (f : float)
| JStr (s : string)
| JArr (l : list json)
| JObj (m : gmap string json).

(** Python exceptions, each with the text [str(e)] would give. *)
Inductive exn : Type :=
| AttributeError (detail : string)
| TypeError (detail : string)
| BadRequest (detail : string)
| PoolError (detail : string)
| DatabaseError (detail : string).

Definition exn_str (e : exn) : string :=
  match e with
  | AttributeError d | TypeError d | BadRequest d
  | PoolError d | DatabaseError d => d
  end.

(** [bool(v)]: [None], [False], zero, and the empty string, list and dict
    are false. *)
Definition truthy (v : json) : bool :=
  match v with
  | JNull => false
  | JBool b => b
  | JInt z => negb (z =? 0)%Z
  | JFloat f => negb (PrimFloat.eqb f 0%float)
  | JStr s => negb (String.eqb s "")
  | JArr l => match l with [] => false | _ :: _ => true end
  | JObj m => negb (bool_decide (m = ∅))
  end.

(** The name Python prints for the type of a value. *)
Definition type_name (v : json) : string :=
  match v with
  | JNull => "NoneType"
  | JBool _ => "bool"
  | JInt _ => "int"
  | JFloat _ => "float"
  | JStr _ => "str"
  | JArr _ => "list"
  | JObj _ => "dict"
  end.

(** ** The store and the monad of handler bodies *)

Module Row.
(** One row of [contacts], columns as in [create_table]. *)
Record t : Type := mk {
  id : Z;
  name : string;
  email : string;
  phone : string;
  message : string;
  created_at : Z
}.
End Row.

Inductive pool_event : Type := Acquire | Release.

Inductive log_record : Type :=
| INFO (msg : string)
| ERROR (msg : string).

Record World : Type := mkWorld {
  pool_created : bool;            (* the global [pool] is not [None] *)
  contacts : list Row.t;          (* the table, in insertion order *)
  auto_increment : Z;             (* next value of the [id] column *)
  pool_log : list pool_event;     (* connections taken and given back *)
  app_log : list log_record       (* what [logger] wrote *)
}.

Record Env : Type := mkEnv {
  now : Z;                          (* CURRENT_TIMESTAMP of the server *)
  acquire_error : option string;    (* [pool.acquire()] raises *)
  execute_error : option string     (* [cursor.execute(...)] raises *)
}.

Inductive outcome (A : Type) : Type :=
| Ok (a : A)
| Raise (e : exn).
Arguments Ok {A} a.
Arguments Raise {A} e.

Definition M (A : Type) : Type := World -> outcome A * World.

Definition ret {A} (a : A) : M A := fun w => (Ok a, w).
Definition raise {A} (e : exn) : M A := fun w => (Raise e, w).
Definition bind {A B} (c : M A) (k : A -> M B) : M B :=
  fun w => match c w with
           | (Ok a, w') => k a w'
           | (Raise e, w') => (Raise e, w')
           end.

Declare Scope py_scope.
Delimit Scope py_scope with py.
Notation "x <- c ;; k" := (bind c (fun x => k))
  (at level 100, c at next level, right associativity) : py_scope.
Notation "c ;;; k" := (bind c (fun _ => k))
  (at level 100, right associativity) : py_scope.
Open Scope py_scope.

Definition logger (r : log_record) : M unit :=
  fun w => (Ok tt, mkWorld (pool_created w) (contacts w) (auto_increment w)
                           (pool_log w) (app_log w ++ [r])).

Definition pool_note (ev : pool_event) (w : World) : World :=
  mkWorld (pool_created w) (contacts w) (auto_increment w)
          (pool_log w ++ [ev]) (app_log w).

(** ** Python operations on parsed JSON *)

Definition no_attribute (v : json) (attr : string) : exn :=
  AttributeError
    ("'" +:+ type_name v +:+ "' object has no attribute '" +:+ attr +:+ "'").

(** [data.get(key, dflt)]; only a dict has [get]. *)
Definition py_get_default (data : json) (key : string) (dflt : json) : M json :=
  match data with
  | JObj m => ret (default dflt (m !! key))
  | _ => raise (no_attribute data "get")
  end.

(** [data.get(key)]: the default is [None]. *)
Definition py_get (data : json) (key : string) : M json :=
  py_get_default data key JNull.

(** [needle in v] for a string [needle]: substring of a string, member of
    a list, key of a dict; the other types are not iterable. *)
Definition py_in (needle : string) (v : json) : M bool :=
  match v with
  | JStr s => ret (Str.contains needle s)
  | JArr l =>
      ret (existsb (fun x => match x with
                             | JStr t => String.eqb needle t
                             | _ => false
                             end) l)
  | JObj m => ret (bool_decide (is_Some (m !! needle)))
  | _ => raise (TypeError ("argument of type '" +:+ type_name v
                           +:+ "' is not iterable"))
  end.

(** [v.strip()]; only a string has [strip]. *)
Definition py_strip (v : json) : M string :=
  match v with
  | JStr s => ret (Str.strip s)
  | _ => raise (no_attribute v "strip")
  end.

(** ** The request body *)

Inductive body : Type :=
| NotJson                     (* the content type is not JSON *)
| Malformed (detail : string) (* JSON content type, text that does not parse *)
| Json (v : json).

(** [await request.get_json()]: [None] when the request does not carry
    JSON, [BadRequest] when the text does not parse. *)
Definition get_json (b : body) : M json :=
  match b with
  | NotJson => ret JNull
  | Malformed d => raise (BadRequest d)
  | Json v => ret v
  end.

(** ** The pool and the [contacts] table *)

(** [async with pool.acquire() as conn: async with conn.cursor() ...]: the
    connection goes back to the pool on the way out, also when the block
    raises. *)
Definition with_connection {A} (env : Env) (block : M A) : M A :=
  fun w =>
    if pool_created w then
      match acquire_error env with
      | Some d => (Raise (PoolError d), w)
      | None =>
          let '(r, w') := block (pool_note Acquire w) in
          (r, pool_note Release w')
      end
    else (Raise (no_attribute JNull "acquire"), w).

(** Column widths of [create_table]: VARCHAR(100), VARCHAR(100),
    VARCHAR(20) count characters, TEXT holds up to 65535 bytes. *)
Definition fits_schema (name email phone message : string) : bool :=
  (String.length name <=? 100) && (String.length email <=? 100)
  && (String.length phone <=? 20) && (Str.utf8_length message <=? 65535)%N.

(** [cursor.execute(insert_query, (name, email, phone, message))] followed
    by [cursor.lastrowid]. The server gives the row the next [id] and its
    current time; in strict SQL mode a value wider than its column is an
    error. *)
Definition execute_insert (env : Env) (name email phone message : string)
  : M Z :=
  fun w =>
    match execute_error env with
    | Some d => (Raise (DatabaseError d), w)
    | None =>
        if fits_schema name email phone message then
          let rid := auto_increment w in
          (Ok rid,
           mkWorld (pool_created w)
                   (contacts w ++
                    [Row.mk rid name email phone message (now env)])
                   (rid + 1)%Z (pool_log w) (app_log w))
        else (Raise (DatabaseError "Data too long for column"), w)
    end.

(** [ORDER BY created_at DESC], as an insertion sort that keeps rows of
    equal time in table order. *)
Fixpoint insert_desc (r : Row.t) (l : list Row.t) : list Row.t :=
  match l with
  | [] => [r]
  | x :: l' =>
      if (Row.created_at x <? Row.created_at r)%Z then r :: l
      else x :: insert_desc r l'
  end.

Definition order_by_created_at_desc (l : list Row.t) : list Row.t :=
  foldr insert_desc [] l.

(** [cursor.execute(select_query)] followed by [cursor.fetchall()]. *)
Definition execute_select (env : Env) : M (list Row.t) :=
  fun w =>
    match execute_error env with
    | Some d => (Raise (DatabaseError d), w)
    | None => (Ok (order_by_created_at_desc (contacts w)), w)
    end.

(** ** Responses *)

(** The dict given to [jsonify]. *)
Inductive resp_body : Type :=
| ErrorBody (error : string)
| CreatedBody (message : string) (id : Z)
| ContactsBody (contacts : list Row.t) (count : Z).

(** [(jsonify(...), status)] *)
Definition response : Type := (resp_body * Z)%type.

Definition internal_server_error : response :=
  (ErrorBody "Internal server error", 500%Z).

(** ** POST /api/contact *)

Definition required_fields : list string := ["name"; "email"; "message"].

(** The loop over [required_fields]; [Some r] is the [return] inside it. *)
Fixpoint validate_required (data : json) (fields : list string)
  : M (option response) :=
  match fields with
  | [] => ret None
  | field :: rest =>
      v <- py_get data field;;
      if negb (truthy v)
      then ret (Some (ErrorBody (field +:+ " is required"), 400%Z))
      else validate_required data rest
  end.

(** [if '@' not in email or '.' not in email]; [Some r] is the [return]. *)
Definition validate_email (email : json) : M (option response) :=
  has_at <- py_in "@" email;;
  invalid <- (if negb has_at then ret true
              else has_dot <- py_in "." email;; ret (negb has_dot));;
  if invalid : bool
  then ret (Some (ErrorBody "Invalid email format", 400%Z))
  else ret None.

(** Both checks, in the order of the handler. *)
Definition validate (data : json) : M (option response) :=
  early <- validate_required data required_fields;;
  match early with
  | Some r => ret (Some r)
  | None => email <- py_get data "email";; validate_email email
  end.

(** The [async with] block of [create_contact]: the four arguments are
    evaluated left to right once the connection is held. *)
Definition insert_contact (env : Env) (data email : json) : M Z :=
  with_connection env
    (name_v <- py_get data "name";;
     name <- py_strip name_v;;
     email_s <- py_strip email;;
     phone_v <- py_get_default data "phone" (JStr "");;
     phone <- py_strip phone_v;;
     message_v <- py_get data "message";;
     message <- py_strip message_v;;
     contact_id <- execute_insert env name (Str.lower email_s) phone message;;
     logger (INFO ("Contact created with ID: " +:+ pretty contact_id));;;
     ret contact_id).

(** The [try] block of [create_contact]. *)
Definition create_contact_try (env : Env) (b : body) : M response :=
  data <- get_json b;;
  early <- validate_required data required_fields;;
  match early with
  | Some r => ret r
  | None =>
      email <- py_get data "email";;
      invalid <- validate_email email;;
      match invalid with
      | Some r => ret r
      | None =>
          contact_id <- insert_contact env data email;;
          ret (CreatedBody "Contact created successfully" contact_id, 201%Z)
      end
  end.

(** What is left of the [try] block once a submission passed both checks. *)
Definition store_contact (env : Env) (data : json) : M response :=
  email <- py_get data "email";;
  contact_id <- insert_contact env data email;;
  ret (CreatedBody "Contact created successfully" contact_id, 201%Z).

(** [create_contact]: the [try] block under [except Exception]. *)
Definition create_contact (env : Env) (b : body) (w : World)
  : response * World :=
  match create_contact_try env b w with
  | (Ok r, w') => (r, w')
  | (Raise e, w') =>
      let '(_, w'') :=
        logger (ERROR ("Error creating contact: " +:+ exn_str e)) w' in
      (internal_server_error, w'')
  end.

(** ** GET /api/contacts *)

Definition get_contacts_try (env : Env) : M response :=
  contacts <- with_connection env (execute_select env);;
  ret (ContactsBody contacts (Z.of_nat (length contacts)), 200%Z).

Definition get_contacts (env : Env) (w : World) : response * World :=
  match get_contacts_try env w with
  | (Ok r, w') => (r, w')
  | (Raise e, w') =>
      let '(_, w'') :=
        logger (ERROR ("Error fetching contacts: " +:+ exn_str e)) w' in
      (internal_server_error, w'')
  end.

(** ** The routes *)

Inductive request : Type :=
| POST_api_contact (b : body)
| GET_api_contacts.

Definition route_try (env : Env) (req : request) : M response :=
  match req with
  | POST_api_contact b => create_contact_try env b
  | GET_api_contacts => get_contacts_try env
  end.

Definition serve (env : Env) (req : request) (w : World) : response * World :=
  match req with
  | POST_api_contact b => create_contact env b w
  | GET_api_contacts => get_contacts env w
  end.

(** ** Startup *)

(** [pool = await aiomysql.create_pool(...)]: the global is assigned only
    when the pool could be created. *)
Definition create_pool (pool_error : option string) : M unit :=
  fun w =>
    match pool_error with
    | Some d => (Raise (PoolError d), w)
    | None => (Ok tt, mkWorld true (contacts w) (auto_increment w)
                              (pool_log w) (app_log w))
    end.

(** [cursor.execute(create_table_query)]: CREATE TABLE IF NOT EXISTS keeps
    a table that is there with its rows; a table that was not there has
    none. *)
Definition execute_create_table (env : Env) : M unit :=
  fun w =>
    match execute_error env with
    | Some d => (Raise (DatabaseError d), w)
    | None => (Ok tt, w)
    end.

Definition create_table (env : Env) : M unit :=
  with_connection env
    (execute_create_table env;;;
     logger (INFO "Contacts table created/verified successfully")).

(** [init_db_pool]: the [except] branch logs and raises again. *)
Definition init_db_pool (pool_error : option string) (env : Env) : M unit :=
  fun w =>
    match (create_pool pool_error;;;
           logger (INFO "Database connection pool created successfully");;;
           create_table env) w with
    | (Ok u, w') => (Ok u, w')
    | (Raise e, w') =>
        let '(_, w'') :=
          logger (ERROR ("Failed to create database pool: " +:+ exn_str e)) w'
        in (Raise e, w'')
    end.

Definition startup (pool_error : option string) (env : Env) : M unit :=
  init_db_pool pool_error env.

(** ** Concrete inputs used in the examples *)

Definition env0 : Env := mkEnv 1000 None None.
Definition world0 : World := mkWorld true [] 1 [] [].

Definition jo : gmap string json :=
  <["name" := JStr "Jo"]> (<["email" := JStr " A@B.com "]>
  (<["phone" := JStr ""]> (<["message" := JStr "Hi"]> ∅))).

Definition blank_name : gmap string json :=
  <["name" := JStr "   "]> (<["email" := JStr "a@b.c"]>
  (<["message" := JStr "Hi"]> ∅)).

Definition false_name : gmap string json :=
  <["name" := JBool false]> (<["email" := JStr ""]>
  (<["message" := JStr "Hi"]> ∅)).

Definition no_dot : gmap string json :=
  <["name" := JStr "Jo"]> (<["email" := JStr "a@b"]>
  (<["message" := JStr "Hi"]> ∅)).

Definition null_phone : gmap string json :=
  <["name" := JStr "Jo"]> (<["email" := JStr "a@b.c"]>
  (<["phone" := JNull]> (<["message" := JStr "Hi"]> ∅))).

Definition row_at (i t : Z) : Row.t := Row.mk i "Jo" "a@b.c" "" "Hi" t.

Definition world3 : World :=
  mkWorld true [row_at 1 10; row_at 2 20; row_at 3 30] 4 [] [].

(** ** Vocabulary of the properties *)

(** The test of the loop, [not data.get(field)], on a dict. *)
Definition missing (m : gmap string json) (field : string) : bool :=
  negb (truthy (default JNull (m !! field))).

(** The first required field, in the order of [required_fields], that the
    loop finds missing. *)
Definition first_missing (m : gmap string json) : option string :=
  List.find (missing m) required_fields.

(** A field that is absent (no such key) or empty (null, or an empty
    string, array or object). *)
Definition absent_or_empty (m : gmap string json) (field : string) : bool :=
  match m !! field with
  | None => true
  | Some JNull => true
  | Some (JStr s) => String.eqb s ""
  | Some (JArr l) => match l with [] => true | _ :: _ => false end
  | Some (JObj o) => bool_decide (o = ∅)
  | Some _ => false
  end.

Definition first_absent_or_empty (m : gmap string json) : option string :=
  List.find (absent_or_empty m) required_fields.

Definition required_response (field : string) : response :=
  (ErrorBody (field +:+ " is required"), 400%Z).

Definition invalid_email : response :=
  (ErrorBody "Invalid email format", 400%Z).

(** An email string that lacks both characters. *)
Definition lacks_both (s : string) : bool :=
  negb (Str.contains "@" s) && negb (Str.contains "." s).

(** An email string that lacks one of the two characters. *)
Definition lacks_one (s : string) : bool :=
  negb (Str.contains "@" s) || negb (Str.contains "." s).

Definition is_str (v : json) : bool :=
  match v with JStr _ => true | _ => false end.

(** Newest first. *)
Definition newest_first : list Row.t -> Prop :=
  StronglySorted (fun a b => (Row.created_at b <= Row.created_at a)%Z).

(** The failures of a request that are nobody's validation error. *)
Inductive unexpected_failure (env : Env) (w : World) : request -> Prop :=
| malformed_json d :
    unexpected_failure env w (POST_api_contact (Malformed d))
| absent_json :
    unexpected_failure env w (POST_api_contact NotJson)
| pool_failure_post data :
    validate data w = (Ok None, w) ->
    pool_created w = false \/ is_Some (acquire_error env) ->
    unexpected_failure env w (POST_api_contact (Json data))
| database_error_post data :
    validate data w = (Ok None, w) ->
    is_Some (execute_error env) ->
    unexpected_failure env w (POST_api_contact (Json data))
| pool_failure_get :
    pool_created w = false \/ is_Some (acquire_error env) ->
    unexpected_failure env w GET_api_contacts
| database_error_get :
    is_Some (execute_error env) ->
    unexpected_failure env w GET_api_contacts
| other_exception req e w' :
    route_try env req w = (Raise e, w') ->
    unexpected_failure env w req.

(** A run of the server: the requests in the order they are served, each
    with what the outside decides during it. *)
Definition run (reqs : list (Env * request)) (w : World) : World :=
  foldl (fun w er => snd (serve er.1 er.2 w)) w reqs.

(** Every [id] in the table is below the next one to be given. *)
Definition ids_below_next (w : World) : Prop :=
  List.Forall (fun r => (Row.id r < auto_increment w)%Z) (contacts w).

(** The [id]s of the table, in insertion order, increase strictly. *)
Definition ids_increasing (l : list Row.t) : Prop :=
  StronglySorted (fun a b => (Row.id a < Row.id b)%Z) l.

(** A string that [strip] leaves as it is. *)
Definition trimmed (s : string) : Prop := Str.strip s = s.

(** A row as the handler writes it. *)
Definition normalized (r : Row.t) : Prop :=
  trimmed (Row.name r) /\ trimmed (Row.email r) /\ trimmed (Row.phone r)
  /\ trimmed (Row.message r)
  /\ Str.lower (Row.email r) = Row.email r
  /\ Str.contains "@" (Row.email r) = true
  /\ Str.contains "." (Row.email r) = true.

(** The characters of a string. *)
Fixpoint chars (s : string) : list ascii :=
  match s with
  | EmptyString => []
  | String c s' => c :: chars s'
  end.

Definition status (r : response) : Z := snd r.

(** No white space in front. *)
Definition starts_clean (s : string) : Prop :=
  match s with
  | EmptyString => True
  | String c _ => Str.is_space c = false
  end.

(** * Properties *)

(** ** Running the monad *)

Lemma bind_ok {A B} (c : M A) (k : A -> M B) w a w' :
  c w = (Ok a, w') -> bind c k w = k a w'.
Proof. unfold bind. intros ->. reflexivity. Qed.

Lemma bind_raise {A B} (c : M A) (k : A -> M B) w e w' :
  c w = (Raise e, w') -> bind c k w = (Raise e, w').
Proof. unfold bind. intros ->. reflexivity. Qed.

Example create_jo :
  create_contact env0 (Json (JObj jo)) world0
  = ((CreatedBody "Contact created successfully" 1, 201%Z),
     mkWorld true [Row.mk 1 "Jo" "a@b.com" "" "Hi" 1000] 2
             [Acquire; Release] [INFO "Contact created with ID: 1"]).
Proof. vm_compute. reflexivity. Qed.

Example list_after_jo :
  fst (get_contacts env0 (snd (create_contact env0 (Json (JObj jo)) world0)))
  = (ContactsBody [Row.mk 1 "Jo" "a@b.com" "" "Hi" 1000] 1, 200%Z).
Proof. vm_compute. reflexivity. Qed.

(** ** Validation reads the submission and nothing else *)

Lemma validate_required_dict m fields w :
  validate_required (JObj m) fields w
  = (Ok (option_map required_response (List.find (missing m) fields)), w).
Proof.
  induction fields as [|f fields IH]; simpl; [reflexivity|].
  unfold bind, py_get, py_get_default, ret, missing in *.
  destruct (truthy (default JNull (m !! f))); simpl; [apply IH|reflexivity].
Qed.

Lemma validate_required_not_dict data fields w :
  (forall m, data <> JObj m) -> fields <> [] ->
  validate_required data fields w = (Raise (no_attribute data "get"), w).
Proof.
  intros Hd Hf. destruct fields as [|f fields]; [congruence|].
  destruct data; try reflexivity. now destruct (Hd m).
Qed.

Lemma validate_required_pure data fields w r w' :
  validate_required data fields w = (r, w') -> w' = w.
Proof.
  revert w r w'. induction fields as [|f fields IH]; simpl; intros w r w'.
  - unfold ret. congruence.
  - unfold bind, py_get, py_get_default, ret, raise.
    destruct data; try congruence.
    destruct (truthy _); simpl; [apply IH|congruence].
Qed.

Lemma py_in_pure needle v w : exists r, py_in needle v w = (r, w).
Proof. destruct v; simpl; unfold ret, raise; eauto. Qed.

Lemma validate_email_pure email w r w' :
  validate_email email w = (r, w') -> w' = w.
Proof.
  unfold validate_email, bind.
  destruct (py_in_pure "@" email w) as [r1 ->].
  destruct r1 as [b|e]; [|congruence].
  destruct b; simpl.
  - unfold bind. destruct (py_in_pure "." email w) as [r2 ->].
    destruct r2 as [b|e]; [|congruence].
    unfold ret. destruct b; simpl; congruence.
  - unfold ret. simpl. congruence.
Qed.

Lemma validate_email_str s w :
  validate_email (JStr s) w
  = (Ok (if lacks_one s then Some invalid_email else None), w).
Proof.
  unfold validate_email, bind, lacks_one. simpl. unfold ret.
  destruct (Str.contains "@" s); simpl; [|reflexivity].
  unfold bind, ret. destruct (Str.contains "." s); reflexivity.
Qed.

Lemma validate_pure data w r w' : validate data w = (r, w') -> w' = w.
Proof.
  unfold validate, bind.
  destruct (validate_required data required_fields w) as [r1 w1] eqn:E1.
  apply validate_required_pure in E1 as ->.
  destruct r1 as [[r0|]|e]; unfold ret; try congruence.
  unfold py_get, py_get_default.
  destruct data; unfold raise, ret; try congruence.
  apply validate_email_pure.
Qed.

Lemma create_contact_try_validate env data w :
  create_contact_try env (Json data) w
  = match validate data w with
    | (Ok (Some r), _) => (Ok r, w)
    | (Ok None, _) => store_contact env data w
    | (Raise e, _) => (Raise e, w)
    end.
Proof.
  unfold create_contact_try, validate, store_contact, get_json, bind, ret.
  destruct (validate_required data required_fields w) as [r1 w1] eqn:E1.
  apply validate_required_pure in E1 as ->.
  destruct r1 as [[r0|]|e]; try reflexivity.
  destruct (py_get data "email" w) as [r2 w2] eqn:E2.
  assert (w2 = w) as ->.
  { unfold py_get, py_get_default in E2.
    destruct data; unfold raise, ret in E2; congruence. }
  destruct r2 as [email|e]; [|reflexivity].
  destruct (validate_email email w) as [r3 w3] eqn:E3.
  apply validate_email_pure in E3 as ->.
  destruct r3 as [[r0|]|e]; reflexivity.
Qed.

Lemma create_contact_rejected env data w r :
  validate data w = (Ok (Some r), w) ->
  create_contact env (Json data) w = (r, w).
Proof.
  intros H. unfold create_contact.
  rewrite create_contact_try_validate, H. reflexivity.
Qed.

Lemma validate_dict m w :
  validate (JObj m) w
  = match first_missing m with
    | Some f => (Ok (Some (required_response f)), w)
    | None => validate_email (default JNull (m !! "email")) w
    end.
Proof.
  unfold validate, bind. rewrite validate_required_dict.
  fold (first_missing m). destruct (first_missing m); reflexivity.
Qed.

Lemma absent_or_empty_missing m f :
  absent_or_empty m f = true -> missing m f = true.
Proof.
  unfold absent_or_empty, missing.
  destruct (m !! f) as [[| | | |s|l|o]|]; simpl; try congruence.
  - intros ->. reflexivity.
  - destruct l; simpl; congruence.
  - intros ->. reflexivity.
Qed.

Lemma find_some_of_elem {A} (p : A -> bool) (l : list A) x :
  In x l -> p x = true -> exists y, List.find p l = Some y.
Proof.
  induction l as [|a l IH]; simpl; [tauto|].
  intros [->|Hin] Hp.
  - rewrite Hp. eauto.
  - destruct (p a); eauto.
Qed.

(** ** C1 *)

(** C1, as stated, fails: with [name] set to [false] and [email] empty the
    first absent or empty field is [email], yet the message names [name]. *)
Lemma C1_counterexample :
  absent_or_empty false_name "name" = false
  /\ first_absent_or_empty false_name = Some "email"
  /\ fst (create_contact env0 (Json (JObj false_name)) world0)
     = (ErrorBody "name is required", 400%Z)
  /\ fst (create_contact env0 (Json (JObj false_name)) world0)
     <> (ErrorBody "email is required", 400%Z).
Proof. vm_compute. repeat split; congruence. Qed.

(** C1 (amended): for every submitted JSON object in which one of [name],
    [email], [message] is absent or false for Python ([None], [False], zero,
    an empty string, list or dict), create-contact answers 400 with
    "<field> is required" for the first such field in the order name,
    email, message, and leaves the world as it was: no row is inserted. *)
Theorem C1_first_missing_field_400 env (m : gmap string json) w :
  (exists f, In f required_fields /\ missing m f = true) ->
  exists f, first_missing m = Some f
            /\ create_contact env (Json (JObj m)) w
               = ((ErrorBody (f +:+ " is required"), 400%Z), w).
Proof.
  intros (f0 & Hin & Hmiss).
  destruct (find_some_of_elem (missing m) required_fields f0 Hin Hmiss)
    as [f Hf].
  exists f. split; [exact Hf|].
  apply create_contact_rejected. rewrite validate_dict.
  unfold first_missing. rewrite Hf. reflexivity.
Qed.

Lemma C1_first_missing_field_400_witness :
  (exists f, In f required_fields /\ missing false_name f = true)
  /\ exists f, first_missing false_name = Some f
               /\ create_contact env0 (Json (JObj false_name)) world0
                  = ((ErrorBody (f +:+ " is required"), 400%Z), world0).
Proof.
  assert (H : exists f, In f required_fields /\ missing false_name f = true).
  { exists "name". split; [simpl; tauto | vm_compute; reflexivity]. }
  split; [exact H|].
  exact (C1_first_missing_field_400 env0 false_name world0 H).
Defined.

(** ** C2 and C3: the email check *)

Lemma first_missing_none m :
  (forall f, In f required_fields -> missing m f = false) ->
  first_missing m = None.
Proof.
  intros H. unfold first_missing.
  destruct (List.find (missing m) required_fields) as [f|] eqn:E;
    [|reflexivity].
  apply List.find_some in E as [Hin Hm]. rewrite (H f Hin) in Hm. discriminate.
Qed.

Lemma validate_present_str m s w :
  (forall f, In f required_fields -> missing m f = false) ->
  m !! "email" = Some (JStr s) ->
  validate (JObj m) w
  = (Ok (if lacks_one s then Some invalid_email else None), w).
Proof.
  intros Hreq He. rewrite validate_dict, (first_missing_none m Hreq), He.
  apply validate_email_str.
Qed.

(** The [try] block after validation answers 201 or raises. *)
Lemma store_contact_not_400 env data w r w' :
  store_contact env data w = (Ok r, w') -> snd r = 201%Z.
Proof.
  unfold store_contact, bind, ret.
  destruct (py_get data "email" w) as [[email|e] w1]; [|discriminate].
  destruct (insert_contact env data email w1) as [[cid|e] w2]; [|discriminate].
  intros [= <- _]. reflexivity.
Qed.

Lemma rejects_lacking_email env (m : gmap string json) s w :
  (forall f, In f required_fields -> missing m f = false) ->
  m !! "email" = Some (JStr s) ->
  lacks_one s = true ->
  create_contact env (Json (JObj m)) w = (invalid_email, w).
Proof.
  intros Hreq He Hlack. apply create_contact_rejected.
  rewrite (validate_present_str m s w Hreq He), Hlack. reflexivity.
Qed.

Lemma lacks_one_true s :
  lacks_one s = true
  <-> (Str.contains "@" s = false \/ Str.contains "." s = false).
Proof.
  unfold lacks_one.
  destruct (Str.contains "@" s), (Str.contains "." s); simpl; intuition congruence.
Qed.

(** C2: when the three required fields pass the required-field check and
    the email is a string without "@" or without ".", create-contact
    answers 400 with the invalid-email message (and changes nothing). *)
Theorem C2_email_lacking_at_or_dot_400 env (m : gmap string json) s w :
  (forall f, In f required_fields -> missing m f = false) ->
  m !! "email" = Some (JStr s) ->
  Str.contains "@" s = false \/ Str.contains "." s = false ->
  create_contact env (Json (JObj m)) w
  = ((ErrorBody "Invalid email format", 400%Z), w).
Proof.
  intros Hreq He Hlack.
  apply (rejects_lacking_email env m s w Hreq He), lacks_one_true, Hlack.
Qed.

Lemma no_dot_required f : In f required_fields -> missing no_dot f = false.
Proof.
  simpl. intros [<-|[<-|[<-|[]]]]; vm_compute; reflexivity.
Qed.

Lemma C2_email_lacking_at_or_dot_400_witness :
  create_contact env0 (Json (JObj no_dot)) world0
  = ((ErrorBody "Invalid email format", 400%Z), world0).
Proof.
  apply (C2_email_lacking_at_or_dot_400 env0 no_dot "a@b" world0).
  - exact no_dot_required.
  - vm_compute. reflexivity.
  - right. vm_compute. reflexivity.
Defined.

(** C3, as stated, fails: "a@b" has "@" and no ".", so it does not lack
    both, and it is rejected as an invalid email, not accepted. *)
Lemma C3_counterexample :
  Str.contains "@" "a@b" = true
  /\ Str.contains "." "a@b" = false
  /\ lacks_both "a@b" = false
  /\ no_dot !! "email" = Some (JStr "a@b")
  /\ create_contact env0 (Json (JObj no_dot)) world0
     = ((ErrorBody "Invalid email format", 400%Z), world0).
Proof. vm_compute. repeat split; reflexivity. Qed.

(** C3 (amended): with the required fields present, the invalid-email
    answer is given exactly when the email string lacks "@" or lacks ".";
    an email with only one of the two characters is rejected. *)
Theorem C3_invalid_email_iff_lacks_one env (m : gmap string json) s w :
  (forall f, In f required_fields -> missing m f = false) ->
  m !! "email" = Some (JStr s) ->
  fst (create_contact env (Json (JObj m)) w) = invalid_email
  <-> (Str.contains "@" s = false \/ Str.contains "." s = false).
Proof.
  intros Hreq He. split.
  - intros Hresp.
    destruct (Str.contains "@" s) eqn:Hat; [|left; reflexivity].
    destruct (Str.contains "." s) eqn:Hdot; [|right; reflexivity].
    exfalso. revert Hresp. unfold create_contact.
    rewrite create_contact_try_validate,
      (validate_present_str m s w Hreq He).
    unfold lacks_one. rewrite Hat, Hdot. simpl.
    destruct (store_contact env (JObj m) w) as [[r|e] w'] eqn:E.
    + apply store_contact_not_400 in E. simpl. intros ->. discriminate.
    + simpl. discriminate.
  - intros Hlack. apply lacks_one_true in Hlack.
    rewrite (rejects_lacking_email env m s w Hreq He Hlack). reflexivity.
Qed.

Lemma C3_invalid_email_iff_lacks_one_witness :
  fst (create_contact env0 (Json (JObj no_dot)) world0) = invalid_email
  <-> (Str.contains "@" "a@b" = false \/ Str.contains "." "a@b" = false).
Proof.
  apply (C3_invalid_email_iff_lacks_one env0 no_dot "a@b" world0).
  - exact no_dot_required.
  - vm_compute. reflexivity.
Defined.

(** ** C4, C5, C10: what is stored *)

Lemma create_contact_passed env data w :
  validate data w = (Ok None, w) ->
  create_contact env (Json data) w
  = match store_contact env data w with
    | (Ok r, w') => (r, w')
    | (Raise e, w') =>
        (internal_server_error,
         snd (logger (ERROR ("Error creating contact: " +:+ exn_str e)) w'))
    end.
Proof.
  intros H. unfold create_contact.
  rewrite create_contact_try_validate, H.
  destruct (store_contact env data w) as [[r|e] w']; reflexivity.
Qed.

Lemma store_contact_strings env (m : gmap string json) n e p msg w :
  pool_created w = true ->
  acquire_error env = None ->
  execute_error env = None ->
  m !! "name" = Some (JStr n) ->
  m !! "email" = Some (JStr e) ->
  default (JStr "") (m !! "phone") = JStr p ->
  m !! "message" = Some (JStr msg) ->
  fits_schema (Str.strip n) (Str.lower (Str.strip e)) (Str.strip p)
              (Str.strip msg) = true ->
  store_contact env (JObj m) w
  = (Ok (CreatedBody "Contact created successfully" (auto_increment w),
         201%Z),
     mkWorld true
       (contacts w ++
        [Row.mk (auto_increment w) (Str.strip n) (Str.lower (Str.strip e))
                (Str.strip p) (Str.strip msg) (now env)])
       (auto_increment w + 1)%Z
       (pool_log w ++ [Acquire; Release])
       (app_log w ++
        [INFO ("Contact created with ID: " +:+ pretty (auto_increment w))])).
Proof.
  intros Hpool Hacq Hexe Hn He Hp Hm Hfit.
  unfold store_contact, insert_contact, with_connection, bind,
    py_get, py_get_default, ret.
  rewrite He, Hpool, Hacq, Hn, Hp, Hm. simpl.
  unfold execute_insert. rewrite Hexe. simpl. rewrite Hfit. simpl.
  unfold pool_note. simpl. rewrite Hpool, <- app_assoc. reflexivity.
Qed.

(** A phone that is there and is not a string stops the insert. *)
Lemma store_contact_phone_not_str env (m : gmap string json) v w :
  m !! "phone" = Some v ->
  is_str v = false ->
  exists e w', store_contact env (JObj m) w = (Raise e, w')
               /\ contacts w' = contacts w.
Proof.
  intros Hp Hv.
  unfold store_contact, insert_contact, with_connection, bind,
    py_get, py_get_default, ret.
  destruct (pool_created w); [|simpl; eauto].
  destruct (acquire_error env); [simpl; eauto|].
  rewrite Hp. simpl.
  destruct (default JNull (m !! "name")); simpl; eauto.
  destruct (default JNull (m !! "email")); simpl; eauto.
  destruct v; simpl; try discriminate; eauto.
Qed.

(** C4, as stated, fails: a submission with [phone: null] passes both
    checks and is answered 500 with no row stored. *)
Lemma C4_counterexample :
  validate (JObj null_phone) world0 = (Ok None, world0)
  /\ fst (create_contact env0 (Json (JObj null_phone)) world0)
     = (ErrorBody "Internal server error", 500%Z)
  /\ contacts (snd (create_contact env0 (Json (JObj null_phone)) world0))
     = [].
Proof. vm_compute. repeat split; reflexivity. Qed.

(** C4 (amended): for every submission that passes validation, whose
    [name], [email] and [message] are strings, whose [phone] is a string or
    absent (then taken as the empty string), whose values after trimming
    fit the columns, and with the pool and the database answering without
    error, create-contact answers 201 with the success message and the new
    identifier and appends exactly one row: email trimmed and lower-cased,
    name, phone and message trimmed. *)
Theorem C4_valid_submission_stored env (m : gmap string json) n e p msg w :
  validate (JObj m) w = (Ok None, w) ->
  m !! "name" = Some (JStr n) ->
  m !! "email" = Some (JStr e) ->
  m !! "message" = Some (JStr msg) ->
  (m !! "phone" = None /\ p = "") \/ m !! "phone" = Some (JStr p) ->
  fits_schema (Str.strip n) (Str.lower (Str.strip e)) (Str.strip p)
              (Str.strip msg) = true ->
  pool_created w = true ->
  acquire_error env = None ->
  execute_error env = None ->
  exists w',
    create_contact env (Json (JObj m)) w
    = ((CreatedBody "Contact created successfully" (auto_increment w),
        201%Z), w')
    /\ contacts w'
       = contacts w ++
         [Row.mk (auto_increment w) (Str.strip n) (Str.lower (Str.strip e))
                 (Str.strip p) (Str.strip msg) (now env)].
Proof.
  intros Hval Hn He Hm Hp Hfit Hpool Hacq Hexe.
  assert (Hp' : default (JStr "") (m !! "phone") = JStr p).
  { destruct Hp as [[-> ->] | ->]; reflexivity. }
  rewrite (create_contact_passed env (JObj m) w Hval).
  rewrite (store_contact_strings env m n e p msg w
             Hpool Hacq Hexe Hn He Hp' Hm Hfit).
  eexists. split; reflexivity.
Qed.

Lemma C4_valid_submission_stored_witness :
  exists w',
    create_contact env0 (Json (JObj jo)) world0
    = ((CreatedBody "Contact created successfully" 1, 201%Z), w')
    /\ contacts w' = [] ++ [Row.mk 1 "Jo" "a@b.com" "" "Hi" 1000].
Proof.
  apply (C4_valid_submission_stored env0 jo "Jo" " A@B.com " "" "Hi" world0);
    try (vm_compute; reflexivity).
  right. vm_compute. reflexivity.
Defined.

(** C5 at the submission [{name: "   ", email: "a@b.c", message: "Hi"}]:
    the name passes the required-field check, the answer is 201, and the
    row stored has the empty string as its name. *)
Theorem C5_blank_name_stored_empty :
  missing blank_name "name" = false
  /\ create_contact env0 (Json (JObj blank_name)) world0
     = ((CreatedBody "Contact created successfully" 1, 201%Z),
        mkWorld true [Row.mk 1 "" "a@b.c" "" "Hi" 1000] 2
                [Acquire; Release] [INFO "Contact created with ID: 1"]).
Proof. vm_compute. split; reflexivity. Qed.

(** C10: when the submission passes validation and [phone] is present with
    a value that is not a string, create-contact answers 500 with the
    generic message and the table is as it was. *)
Theorem C10_non_string_phone_500 env (m : gmap string json) v w :
  validate (JObj m) w = (Ok None, w) ->
  m !! "phone" = Some v ->
  is_str v = false ->
  fst (create_contact env (Json (JObj m)) w)
  = (ErrorBody "Internal server error", 500%Z)
  /\ contacts (snd (create_contact env (Json (JObj m)) w)) = contacts w.
Proof.
  intros Hval Hp Hv.
  rewrite (create_contact_passed env (JObj m) w Hval).
  destruct (store_contact_phone_not_str env m v w Hp Hv)
    as (e & w' & -> & Hc).
  split; [reflexivity | exact Hc].
Qed.

Lemma C10_non_string_phone_500_witness :
  fst (create_contact env0 (Json (JObj null_phone)) world0)
  = (ErrorBody "Internal server error", 500%Z)
  /\ contacts (snd (create_contact env0 (Json (JObj null_phone)) world0))
     = contacts world0.
Proof.
  apply (C10_non_string_phone_500 env0 null_phone JNull world0);
    vm_compute; reflexivity.
Defined.

(** ** C6: a rejected submission touches nothing *)

Lemma validate_required_some data fields w r w' :
  validate_required data fields w = (Ok (Some r), w') -> snd r = 400%Z.
Proof.
  revert w. induction fields as [|f fields IH]; simpl; intros w.
  - unfold ret. discriminate.
  - unfold bind. destruct (py_get data f w) as [[v|e] w1]; [|discriminate].
    destruct (truthy v); simpl; [apply IH|].
    unfold ret. intros [= <- _]. reflexivity.
Qed.

Lemma validate_email_some email w r w' :
  validate_email email w = (Ok (Some r), w') -> r = invalid_email.
Proof.
  unfold validate_email, bind.
  destruct (py_in "@" email w) as [[b|e] w1]; [|discriminate].
  destruct (if negb b then _ else _) as [[i|e] w2]; [|discriminate].
  destruct i; unfold ret; [|discriminate].
  intros [= <- _]. reflexivity.
Qed.

Lemma validate_some_400 data w r w' :
  validate data w = (Ok (Some r), w') -> snd r = 400%Z.
Proof.
  unfold validate, bind.
  destruct (validate_required data required_fields w) as [[[r0|]|e] w1] eqn:E1;
    [| |discriminate].
  - unfold ret. intros [= <- _]. eapply validate_required_some, E1.
  - destruct (py_get data "email" w1) as [[email|e] w2]; [|discriminate].
    intros H. apply validate_email_some in H as ->. reflexivity.
Qed.

(** C6: when validation fails (a required field is missing or the email is
    invalid), create-contact gives the 400 answer of the validator and the
    world afterwards is the world before: the table is unchanged and the
    pool has handed out no connection. *)
Theorem C6_rejected_without_storage env data w r w0 :
  validate data w = (Ok (Some r), w0) ->
  snd r = 400%Z
  /\ fst (create_contact env (Json data) w) = r
  /\ snd (create_contact env (Json data) w) = w
  /\ contacts (snd (create_contact env (Json data) w)) = contacts w
  /\ pool_log (snd (create_contact env (Json data) w)) = pool_log w.
Proof.
  intros H. pose proof (validate_some_400 data w r w0 H) as H400.
  pose proof (validate_pure data w _ _ H) as ->.
  rewrite (create_contact_rejected env data w r H). auto.
Qed.

Lemma C6_rejected_without_storage_witness :
  snd invalid_email = 400%Z
  /\ fst (create_contact env0 (Json (JObj no_dot)) world0) = invalid_email
  /\ snd (create_contact env0 (Json (JObj no_dot)) world0) = world0
  /\ contacts (snd (create_contact env0 (Json (JObj no_dot)) world0))
     = contacts world0
  /\ pool_log (snd (create_contact env0 (Json (JObj no_dot)) world0))
     = pool_log world0.
Proof.
  apply (C6_rejected_without_storage env0 (JObj no_dot) world0
           invalid_email world0).
  vm_compute. reflexivity.
Defined.

(** ** C8: the count *)

Lemma get_contacts_try_ok env w r w' :
  get_contacts_try env w = (Ok r, w') ->
  exists rows, r = (ContactsBody rows (Z.of_nat (length rows)), 200%Z)
               /\ with_connection env (execute_select env) w = (Ok rows, w').
Proof.
  unfold get_contacts_try, bind, ret.
  destruct (with_connection env (execute_select env) w) as [[rows|e] w1];
    [|discriminate].
  intros [= <- <-]. eauto.
Qed.

Lemma get_contacts_200 env w b w' :
  get_contacts env w = ((b, 200%Z), w') ->
  get_contacts_try env w = (Ok (b, 200%Z), w').
Proof.
  unfold get_contacts.
  destruct (get_contacts_try env w) as [[r|e] w1].
  - intros [= -> ->]. reflexivity.
  - simpl. unfold internal_server_error. discriminate.
Qed.

(** C8: in every 200 answer of list-contacts, [count] is the length of
    [contacts]. *)
Theorem C8_count_is_length env w rows n w' :
  get_contacts env w = ((ContactsBody rows n, 200%Z), w') ->
  n = Z.of_nat (length rows).
Proof.
  intros H. apply get_contacts_200, get_contacts_try_ok in H
    as (rows' & [= -> ->] & _).
  reflexivity.
Qed.

Lemma C8_count_is_length_witness :
  3%Z = Z.of_nat (length [row_at 3 30; row_at 2 20; row_at 1 10]).
Proof.
  apply (C8_count_is_length env0 world3
           [row_at 3 30; row_at 2 20; row_at 1 10] 3
           (mkWorld true [row_at 1 10; row_at 2 20; row_at 3 30] 4
                    [Acquire; Release] [])).
  vm_compute. reflexivity.
Defined.

(** ** C7: newest first *)

Lemma insert_desc_perm r l : Permutation (r :: l) (insert_desc r l).
Proof.
  induction l as [|x l IH]; simpl; [reflexivity|].
  destruct (Row.created_at x <? Row.created_at r)%Z; [reflexivity|].
  rewrite perm_swap. now apply perm_skip.
Qed.

Lemma order_by_created_at_desc_perm l :
  Permutation l (order_by_created_at_desc l).
Proof.
  induction l as [|r l IH]; simpl; [reflexivity|].
  rewrite <- insert_desc_perm. now apply perm_skip.
Qed.

Lemma insert_desc_sorted r l :
  newest_first l -> newest_first (insert_desc r l).
Proof.
  unfold newest_first. induction 1 as [|x l Hs IH Hx]; simpl.
  - repeat constructor.
  - destruct (Row.created_at x <? Row.created_at r)%Z eqn:E.
    + apply Z.ltb_lt in E. constructor; [now constructor|].
      constructor; [lia|].
      eapply List.Forall_impl; [|exact Hx]. simpl. intros; lia.
    + apply Z.ltb_ge in E. constructor; [exact IH|].
      eapply Permutation_Forall; [apply insert_desc_perm|].
      constructor; [exact E|exact Hx].
Qed.

Lemma order_by_created_at_desc_sorted l :
  newest_first (order_by_created_at_desc l).
Proof.
  induction l as [|r l IH]; simpl; [constructor|].
  now apply insert_desc_sorted.
Qed.

(** Around any row of a list sorted newest first: not older before it,
    not newer after it. *)
Lemma newest_first_around a x b :
  newest_first (a ++ x :: b) ->
  (forall y, In y a -> (Row.created_at x <= Row.created_at y)%Z)
  /\ (forall y, In y b -> (Row.created_at y <= Row.created_at x)%Z).
Proof.
  unfold newest_first. induction a as [|z a IH]; simpl; intros Hs.
  - apply StronglySorted_inv in Hs as [_ Hx]. split; [tauto|].
    intros y Hy. exact (proj1 (List.Forall_forall _ _) Hx y Hy).
  - apply StronglySorted_inv in Hs as [Hs Hz].
    destruct (IH Hs) as [Ha Hb]. split; [|exact Hb].
    intros y [<-|Hy]; [|now apply Ha].
    apply (proj1 (List.Forall_forall _ _) Hz). apply in_elt.
Qed.

Lemma newest_first_three rows r1 r2 r3 :
  newest_first rows ->
  In r1 rows -> In r2 rows -> In r3 rows ->
  (Row.created_at r1 < Row.created_at r2)%Z ->
  (Row.created_at r2 < Row.created_at r3)%Z ->
  exists l0 l1 l2 l3, rows = l0 ++ r3 :: l1 ++ r2 :: l2 ++ r1 :: l3.
Proof.
  intros Hs H1 H2 H3 H12 H23.
  destruct (in_split _ _ H2) as (a & b & ->).
  destruct (newest_first_around a r2 b Hs) as [Ha Hb].
  assert (H3a : In r3 a).
  { apply in_app_or in H3 as [H|[->|H]]; [exact H|lia|].
    specialize (Hb _ H). lia. }
  assert (H1b : In r1 b).
  { apply in_app_or in H1 as [H|[->|H]]; [|lia|exact H].
    specialize (Ha _ H). lia. }
  destruct (in_split _ _ H3a) as (l0 & l1 & ->).
  destruct (in_split _ _ H1b) as (l2 & l3 & ->).
  exists l0, l1, l2, l3. rewrite <- app_assoc. reflexivity.
Qed.

Lemma get_contacts_served env w :
  pool_created w = true ->
  acquire_error env = None ->
  execute_error env = None ->
  get_contacts env w
  = ((ContactsBody (order_by_created_at_desc (contacts w))
        (Z.of_nat (length (order_by_created_at_desc (contacts w)))),
      200%Z),
     pool_note Release (pool_note Acquire w)).
Proof.
  intros Hpool Hacq Hexe.
  unfold get_contacts, get_contacts_try, bind, with_connection,
    execute_select.
  rewrite Hpool, Hacq, Hexe. reflexivity.
Qed.

(** C7: with the pool and the database answering, list-contacts answers
    200 with all the rows of the table, ordered by [created_at]
    descending: of three rows stored at times t1 < t2 < t3 the one of t3
    comes first, then the one of t2, then the one of t1. *)
Theorem C7_newest_first env w :
  pool_created w = true ->
  acquire_error env = None ->
  execute_error env = None ->
  exists rows,
    fst (get_contacts env w)
    = (ContactsBody rows (Z.of_nat (length rows)), 200%Z)
    /\ Permutation (contacts w) rows
    /\ newest_first rows
    /\ forall r1 r2 r3,
         In r1 (contacts w) -> In r2 (contacts w) -> In r3 (contacts w) ->
         (Row.created_at r1 < Row.created_at r2)%Z ->
         (Row.created_at r2 < Row.created_at r3)%Z ->
         exists l0 l1 l2 l3, rows = l0 ++ r3 :: l1 ++ r2 :: l2 ++ r1 :: l3.
Proof.
  intros Hpool Hacq Hexe.
  exists (order_by_created_at_desc (contacts w)).
  rewrite (get_contacts_served env w Hpool Hacq Hexe).
  pose proof (order_by_created_at_desc_perm (contacts w)) as Hperm.
  pose proof (order_by_created_at_desc_sorted (contacts w)) as Hsort.
  repeat split; try assumption.
  intros r1 r2 r3 H1 H2 H3 H12 H23.
  apply newest_first_three; try assumption;
    eapply Permutation_in; eassumption.
Qed.

Lemma C7_newest_first_witness :
  exists rows,
    fst (get_contacts env0 world3)
    = (ContactsBody rows (Z.of_nat (length rows)), 200%Z)
    /\ Permutation (contacts world3) rows
    /\ newest_first rows
    /\ forall r1 r2 r3,
         In r1 (contacts world3) -> In r2 (contacts world3) ->
         In r3 (contacts world3) ->
         (Row.created_at r1 < Row.created_at r2)%Z ->
         (Row.created_at r2 < Row.created_at r3)%Z ->
         exists l0 l1 l2 l3, rows = l0 ++ r3 :: l1 ++ r2 :: l2 ++ r1 :: l3.
Proof.
  apply (C7_newest_first env0 world3); reflexivity.
Defined.

Example list_world3 :
  fst (get_contacts env0 world3)
  = (ContactsBody [row_at 3 30; row_at 2 20; row_at 1 10] 3, 200%Z).
Proof. vm_compute. reflexivity. Qed.

(** Three submissions stored at times 10 < 20 < 30, then the list. *)
Example three_posts_then_list :
  let post t w := snd (create_contact (mkEnv t None None) (Json (JObj jo)) w) in
  fst (get_contacts env0 (post 30%Z (post 20%Z (post 10%Z world0))))
  = (ContactsBody [Row.mk 3 "Jo" "a@b.com" "" "Hi" 30;
                   Row.mk 2 "Jo" "a@b.com" "" "Hi" 20;
                   Row.mk 1 "Jo" "a@b.com" "" "Hi" 10] 3, 200%Z).
Proof. vm_compute. reflexivity. Qed.

(** ** C9: the generic 500 *)

Lemma serve_raise env req w e w' :
  route_try env req w = (Raise e, w') ->
  fst (serve env req w) = internal_server_error.
Proof.
  destruct req as [b|]; simpl; intros H.
  - unfold create_contact. rewrite H. reflexivity.
  - unfold get_contacts. rewrite H. reflexivity.
Qed.

Lemma with_connection_pool_failure {A} env (block : M A) w :
  pool_created w = false \/ is_Some (acquire_error env) ->
  exists e, with_connection env block w = (Raise e, w).
Proof.
  unfold with_connection. intros [-> | [d ->]]; [eauto|].
  destruct (pool_created w); eauto.
Qed.

Lemma with_connection_raise {A} env (block : M A) w :
  (forall w1, exists e w2, block w1 = (Raise e, w2)) ->
  exists e w', with_connection env block w = (Raise e, w').
Proof.
  intros H. unfold with_connection.
  destruct (pool_created w); [|eauto].
  destruct (acquire_error env); [eauto|].
  destruct (H (pool_note Acquire w)) as (e & w2 & ->). eauto.
Qed.

Lemma store_contact_fails env data w :
  pool_created w = false \/ is_Some (acquire_error env)
  \/ is_Some (execute_error env) ->
  exists e w', store_contact env data w = (Raise e, w').
Proof.
  intros H. unfold store_contact, bind at 1.
  destruct (py_get data "email" w) as [[email|e] w1] eqn:E; [|eauto].
  assert (w1 = w) as ->.
  { unfold py_get, py_get_default in E.
    destruct data; unfold ret, raise in E; congruence. }
  enough (exists e w', insert_contact env data email w = (Raise e, w'))
    as (e & w' & Hi).
  { unfold bind. rewrite Hi. eauto. }
  unfold insert_contact.
  destruct H as [H | [H | [d Hd]]].
  - edestruct (@with_connection_pool_failure Z env) as [e He];
      [left; exact H|]. rewrite He. eauto.
  - edestruct (@with_connection_pool_failure Z env) as [e He];
      [right; exact H|]. rewrite He. eauto.
  - apply with_connection_raise. intros w1.
    unfold bind, py_get, py_get_default, ret, raise, execute_insert.
    destruct data; simpl; eauto.
    destruct (default JNull (m !! "name")); simpl; eauto.
    destruct email; simpl; eauto.
    destruct (default (JStr "") (m !! "phone")); simpl; eauto.
    destruct (default JNull (m !! "message")); simpl; eauto.
    rewrite Hd. eauto.
Qed.

Lemma get_contacts_try_fails env w :
  pool_created w = false \/ is_Some (acquire_error env)
  \/ is_Some (execute_error env) ->
  exists e w', get_contacts_try env w = (Raise e, w').
Proof.
  intros H.
  enough (exists e w', with_connection env (execute_select env) w
                       = (Raise e, w')) as (e & w' & Hw).
  { unfold get_contacts_try, bind. rewrite Hw. eauto. }
  destruct H as [H | [H | [d Hd]]].
  - destruct (with_connection_pool_failure env (execute_select env) w
                (or_introl H)) as [e ->]. eauto.
  - destruct (with_connection_pool_failure env (execute_select env) w
                (or_intror H)) as [e ->]. eauto.
  - apply with_connection_raise. intros w1. unfold execute_select.
    rewrite Hd. eauto.
Qed.

Lemma unexpected_failure_raises env w req :
  unexpected_failure env w req ->
  exists e w', route_try env req w = (Raise e, w').
Proof.
  intros [d| |data Hval Hpool|data Hval Hdb|Hpool|Hdb|e w' H]; simpl.
  - unfold create_contact_try, bind, get_json, raise. eauto.
  - unfold create_contact_try, bind. simpl. eauto.
  - rewrite create_contact_try_validate, Hval.
    apply store_contact_fails. tauto.
  - rewrite create_contact_try_validate, Hval.
    apply store_contact_fails. tauto.
  - apply get_contacts_try_fails. tauto.
  - apply get_contacts_try_fails. tauto.
  - eauto.
Qed.

(** C9: whenever a request fails unexpectedly (the body is malformed or
    carries no JSON, the pool fails, the database raises, or the [try]
    block raises any other exception), the handler answers 500 and the body
    is the one fixed string "Internal server error", whatever the text of
    the exception. *)
Theorem C9_unexpected_failure_500 env w req :
  unexpected_failure env w req ->
  fst (serve env req w) = (ErrorBody "Internal server error", 500%Z).
Proof.
  intros H. destruct (unexpected_failure_raises env w req H) as (e & w' & He).
  exact (serve_raise env req w e w' He).
Qed.

Lemma C9_unexpected_failure_500_witness :
  fst (serve (mkEnv 1000 None (Some "Lost connection to MySQL server"))
             (POST_api_contact (Json (JObj jo))) world0)
  = (ErrorBody "Internal server error", 500%Z).
Proof.
  apply C9_unexpected_failure_500, database_error_post.
  - vm_compute. reflexivity.
  - simpl. eauto.
Defined.

Example malformed_body_500 :
  serve env0 (POST_api_contact (Malformed "Expecting value")) world0
  = ((ErrorBody "Internal server error", 500%Z),
     mkWorld true [] 1 [] [ERROR "Error creating contact: Expecting value"]).
Proof. vm_compute. reflexivity. Qed.

(** * Further properties of the handlers *)

(** ** What one POST can do to the world *)

Lemma default_null_str (o : option json) s :
  default JNull o = JStr s -> o = Some (JStr s).
Proof. destruct o as [v|]; simpl; [intros ->; reflexivity | discriminate]. Qed.

(** The insert went through: the submission was a dict of strings and the
    world afterwards is the old one with one more row. *)
Lemma store_contact_ok env data w r w' :
  store_contact env data w = (Ok r, w') ->
  exists (m : gmap string json) n e p msg,
    data = JObj m
    /\ m !! "name" = Some (JStr n)
    /\ m !! "email" = Some (JStr e)
    /\ default (JStr "") (m !! "phone") = JStr p
    /\ m !! "message" = Some (JStr msg)
    /\ pool_created w = true
    /\ acquire_error env = None
    /\ execute_error env = None
    /\ fits_schema (Str.strip n) (Str.lower (Str.strip e)) (Str.strip p)
                   (Str.strip msg) = true
    /\ r = (CreatedBody "Contact created successfully" (auto_increment w),
            201%Z)
    /\ w' = mkWorld true
              (contacts w ++
               [Row.mk (auto_increment w) (Str.strip n)
                       (Str.lower (Str.strip e)) (Str.strip p)
                       (Str.strip msg) (now env)])
              (auto_increment w + 1)%Z
              (pool_log w ++ [Acquire; Release])
              (app_log w ++
               [INFO ("Contact created with ID: "
                      +:+ pretty (auto_increment w))]).
Proof.
  intros H.
  destruct data as [| | | | |l|m];
    try (unfold store_contact, bind, py_get, py_get_default, raise in H;
         discriminate).
  destruct (pool_created w) eqn:Hpool;
    [|unfold store_contact, insert_contact, with_connection, bind,
        py_get, py_get_default, ret in H; rewrite Hpool in H; discriminate].
  destruct (acquire_error env) as [d|] eqn:Hacq;
    [unfold store_contact, insert_contact, with_connection, bind,
       py_get, py_get_default, ret in H; rewrite Hpool, Hacq in H;
     discriminate|].
  destruct (default JNull (m !! "name")) as [| | | |n| |] eqn:Hn;
    try (unfold store_contact, insert_contact, with_connection, bind,
           py_get, py_get_default, ret in H;
         rewrite Hpool, Hacq, Hn in H; discriminate).
  destruct (default JNull (m !! "email")) as [| | | |e| |] eqn:He;
    try (unfold store_contact, insert_contact, with_connection, bind,
           py_get, py_get_default, ret in H;
         rewrite Hpool, Hacq, Hn, He in H; discriminate).
  destruct (default (JStr "") (m !! "phone")) as [| | | |p| |] eqn:Hp;
    try (unfold store_contact, insert_contact, with_connection, bind,
           py_get, py_get_default, ret in H;
         rewrite Hpool, Hacq, Hn, He, Hp in H; discriminate).
  destruct (default JNull (m !! "message")) as [| | | |msg| |] eqn:Hm;
    try (unfold store_contact, insert_contact, with_connection, bind,
           py_get, py_get_default, ret in H;
         rewrite Hpool, Hacq, Hn, He, Hp, Hm in H; discriminate).
  destruct (execute_error env) as [d|] eqn:Hexe;
    [unfold store_contact, insert_contact, with_connection, bind,
       py_get, py_get_default, ret, execute_insert in H;
     rewrite Hpool, Hacq, Hn, He, Hp, Hm in H; simpl in H;
     rewrite Hexe in H; discriminate|].
  destruct (fits_schema (Str.strip n) (Str.lower (Str.strip e))
              (Str.strip p) (Str.strip msg)) eqn:Hfit;
    [|unfold store_contact, insert_contact, with_connection, bind,
        py_get, py_get_default, ret, execute_insert in H;
      rewrite Hpool, Hacq, Hn, He, Hp, Hm in H; simpl in H;
      rewrite Hexe, Hfit in H; discriminate].
  apply default_null_str in Hn, He, Hm.
  rewrite (store_contact_strings env m n e p msg w
             Hpool Hacq Hexe Hn He Hp Hm Hfit) in H.
  injection H as <- <-.
  exists m, n, e, p, msg. repeat split; assumption.
Qed.

(** The insert raised: nothing was written, and a connection that was
    taken was given back. *)
Lemma store_contact_raise env data w e w' :
  store_contact env data w = (Raise e, w') ->
  contacts w' = contacts w
  /\ auto_increment w' = auto_increment w
  /\ pool_created w' = pool_created w
  /\ app_log w' = app_log w
  /\ (pool_log w' = pool_log w
      \/ pool_log w' = pool_log w ++ [Acquire; Release]).
Proof.
  set (P := fun x : World =>
              contacts x = contacts w
              /\ auto_increment x = auto_increment w
              /\ pool_created x = pool_created w
              /\ app_log x = app_log w
              /\ (pool_log x = pool_log w
                  \/ pool_log x = pool_log w ++ [Acquire; Release])).
  change (store_contact env data w = (Raise e, w') -> P w').
  assert (P0 : P w) by (unfold P; auto 10).
  assert (P1 : P (pool_note Release (pool_note Acquire w))).
  { unfold P. simpl. rewrite <- app_assoc. auto 10. }
  clearbody P.
  unfold store_contact, insert_contact, with_connection, bind,
    py_get, py_get_default, ret, raise, execute_insert.
  destruct data as [| | | | |l|m]; try (intros [= _ <-]; exact P0).
  destruct (pool_created w); [|intros [= _ <-]; exact P0].
  destruct (acquire_error env); [intros [= _ <-]; exact P0|].
  destruct (default JNull (m !! "name")); simpl;
    try (intros [= _ <-]; exact P1).
  destruct (default JNull (m !! "email")); simpl;
    try (intros [= _ <-]; exact P1).
  destruct (default (JStr "") (m !! "phone")); simpl;
    try (intros [= _ <-]; exact P1).
  destruct (default JNull (m !! "message")); simpl;
    try (intros [= _ <-]; exact P1).
  destruct (execute_error env); simpl;
    try (intros [= _ <-]; exact P1).
  match goal with
  | |- context [fits_schema ?a ?b ?c ?d] => destruct (fits_schema a b c d)
  end; simpl; [discriminate | intros [= _ <-]; exact P1].
Qed.

(** The three ways a POST can end. *)
Lemma create_contact_cases env b w :
  (exists r data,
      b = Json data
      /\ validate data w = (Ok (Some r), w)
      /\ status r = 400%Z
      /\ create_contact env b w = (r, w))
  \/ (exists e w1,
         create_contact_try env b w = (Raise e, w1)
         /\ (pool_log w1 = pool_log w
             \/ pool_log w1 = pool_log w ++ [Acquire; Release])
         /\ create_contact env b w
            = (internal_server_error,
               mkWorld (pool_created w) (contacts w) (auto_increment w)
                 (pool_log w1)
                 (app_log w ++
                  [ERROR ("Error creating contact: " +:+ exn_str e)])))
  \/ (exists (m : gmap string json) n e p msg,
         b = Json (JObj m)
         /\ validate (JObj m) w = (Ok None, w)
         /\ m !! "name" = Some (JStr n)
         /\ m !! "email" = Some (JStr e)
         /\ default (JStr "") (m !! "phone") = JStr p
         /\ m !! "message" = Some (JStr msg)
         /\ pool_created w = true
         /\ acquire_error env = None
         /\ execute_error env = None
         /\ create_contact env b w
            = ((CreatedBody "Contact created successfully" (auto_increment w),
                201%Z),
               mkWorld true
                 (contacts w ++
                  [Row.mk (auto_increment w) (Str.strip n)
                          (Str.lower (Str.strip e)) (Str.strip p)
                          (Str.strip msg) (now env)])
                 (auto_increment w + 1)%Z
                 (pool_log w ++ [Acquire; Release])
                 (app_log w ++
                  [INFO ("Contact created with ID: "
                         +:+ pretty (auto_increment w))]))).
Proof.
  destruct b as [|d|data].
  - right; left. exists (no_attribute JNull "get"), w.
    split; [reflexivity|]. split; [auto|]. reflexivity.
  - right; left. exists (BadRequest d), w.
    split; [reflexivity|]. split; [auto|]. reflexivity.
  - unfold create_contact. rewrite create_contact_try_validate.
    destruct (validate data w) as [[[r|]|e] w0] eqn:V;
      pose proof (validate_pure _ _ _ _ V) as ->.
    + left. exists r, data. split; [reflexivity|]. split; [exact V|].
      split; [exact (validate_some_400 _ _ _ _ V) | reflexivity].
    + destruct (store_contact env data w) as [[r|e] w1] eqn:S.
      * right; right.
        apply store_contact_ok in S
          as (m & n & e & p & msg & -> & Hn & He & Hp & Hm & Hpool & Hacq
              & Hexe & Hfit & -> & ->).
        exists m, n, e, p, msg. repeat split; assumption.
      * right; left. exists e, w1. split; [reflexivity|].
        apply store_contact_raise in S as (Hc & Ha & Hp & Hl & Hpl).
        split; [exact Hpl|].
        unfold logger. rewrite Hc, Ha, Hp, Hl. reflexivity.
    + right; left. exists e, w. split; [reflexivity|]. split; [auto|].
      reflexivity.
Qed.

(** ** X1: statuses, and when the table changes *)


(** ** X2: what a 201 tells *)

(** X2: when create-contact answers 201, the body was a JSON object whose
    [name], [email] and [message] are non-empty strings, whose email has
    "@" and ".", and whose [phone] is a string or absent; the identifier
    in the answer is the one the new row got, and the new row is the last
    of the table, with the trimmed (and for the email lower-cased) values
    and the time of the server. *)
Theorem created_only_from_strings env b w i msg_text :
  fst (create_contact env b w) = (CreatedBody msg_text i, 201%Z) ->
  exists (m : gmap string json) n e p msg,
    b = Json (JObj m)
    /\ m !! "name" = Some (JStr n) /\ n <> ""
    /\ m !! "email" = Some (JStr e)
    /\ Str.contains "@" e = true /\ Str.contains "." e = true
    /\ m !! "message" = Some (JStr msg) /\ msg <> ""
    /\ (m !! "phone" = None /\ p = "" \/ m !! "phone" = Some (JStr p))
    /\ i = auto_increment w
    /\ contacts (snd (create_contact env b w))
       = contacts w ++
         [Row.mk i (Str.strip n) (Str.lower (Str.strip e)) (Str.strip p)
                 (Str.strip msg) (now env)].
Proof.
  destruct (create_contact_cases env b w)
    as [(r & data & _ & _ & H400 & ->)
       |[(e & w1 & _ & _ & ->)
        |(m & n & e & p & msg & -> & Hval & Hn & He & Hp & Hm & _ & _ & _
          & ->)]];
    simpl.
  - intros ->. discriminate.
  - discriminate.
  - intros [= _ <-]. exists m, n, e, p, msg.
    rewrite validate_dict in Hval.
    destruct (first_missing m) as [f|] eqn:Hf; [discriminate|].
    rewrite He in Hval. simpl in Hval. rewrite validate_email_str in Hval.
    destruct (lacks_one e) eqn:Hl; [discriminate|].
    unfold lacks_one in Hl. apply orb_false_elim in Hl as [Hat Hdot].
    apply negb_false_iff in Hat, Hdot.
    unfold first_missing, required_fields in Hf. simpl in Hf.
    unfold missing in Hf. rewrite Hn, He, Hm in Hf. simpl in Hf.
    assert (Hne : n <> "").
    { intros ->. discriminate. }
    assert (Hme : msg <> "").
    { intros ->. destruct (n =? "")%string, (e =? "")%string; discriminate. }
    repeat split; try assumption; try reflexivity.
    destruct (m !! "phone") as [v|]; simpl in Hp.
    + right. congruence.
    + left. split; [reflexivity|]. congruence.
Qed.

Lemma created_only_from_strings_witness :
  exists (m : gmap string json) n e p msg,
    Json (JObj jo) = Json (JObj m)
    /\ m !! "name" = Some (JStr n) /\ n <> ""
    /\ m !! "email" = Some (JStr e)
    /\ Str.contains "@" e = true /\ Str.contains "." e = true
    /\ m !! "message" = Some (JStr msg) /\ msg <> ""
    /\ (m !! "phone" = None /\ p = "" \/ m !! "phone" = Some (JStr p))
    /\ 1%Z = auto_increment world0
    /\ contacts (snd (create_contact env0 (Json (JObj jo)) world0))
       = contacts world0 ++
         [Row.mk 1 (Str.strip n) (Str.lower (Str.strip e)) (Str.strip p)
                 (Str.strip msg) (now env0)].
Proof.
  apply (created_only_from_strings env0 (Json (JObj jo)) world0 1
           "Contact created successfully").
  vm_compute. reflexivity.
Defined.

(** ** X3, X4: the list handler and the connections *)

Lemma get_contacts_cases env w :
  (pool_created w = true /\ acquire_error env = None
   /\ execute_error env = None
   /\ get_contacts env w
      = ((ContactsBody (order_by_created_at_desc (contacts w))
            (Z.of_nat (length (order_by_created_at_desc (contacts w)))),
          200%Z),
         pool_note Release (pool_note Acquire w)))
  \/ (exists e w1,
         (pool_created w = false \/ is_Some (acquire_error env)
          \/ is_Some (execute_error env))
         /\ get_contacts_try env w = (Raise e, w1)
         /\ (pool_log w1 = pool_log w
             \/ pool_log w1 = pool_log w ++ [Acquire; Release])
         /\ get_contacts env w
            = (internal_server_error,
               mkWorld (pool_created w) (contacts w) (auto_increment w)
                 (pool_log w1)
                 (app_log w ++
                  [ERROR ("Error fetching contacts: " +:+ exn_str e)]))).
Proof.
  destruct (pool_created w) eqn:Hpool.
  - destruct (acquire_error env) as [d|] eqn:Hacq.
    + right. exists (PoolError d), w. split; [right; left; eauto|].
      unfold get_contacts, get_contacts_try, bind, with_connection.
      rewrite Hpool, Hacq. simpl. rewrite Hpool. auto.
    + destruct (execute_error env) as [d|] eqn:Hexe.
      * right.
        exists (DatabaseError d), (pool_note Release (pool_note Acquire w)).
        split; [right; right; eauto|].
        unfold get_contacts, get_contacts_try, bind, with_connection,
          execute_select.
        rewrite Hpool, Hacq, Hexe. simpl.
        rewrite Hpool, <- app_assoc. auto.
      * left. do 3 (split; [reflexivity|]).
        apply get_contacts_served; assumption.
  - right. exists (no_attribute JNull "acquire"), w. split; [auto|].
    unfold get_contacts, get_contacts_try, bind, with_connection.
    rewrite Hpool. simpl. rewrite Hpool. auto.
Qed.

(** X3: a request takes at most one connection from the pool and gives it
    back before the answer, also when the block under it raises: the pool
    log after a request is the log before, or the log before followed by
    one acquire and its release. *)
Theorem connection_always_released env req w :
  pool_log (snd (serve env req w)) = pool_log w
  \/ pool_log (snd (serve env req w)) = pool_log w ++ [Acquire; Release].
Proof.
  destruct req as [b|]; simpl.
  - destruct (create_contact_cases env b w)
      as [(r & data & _ & _ & _ & ->)
         |[(e & w1 & _ & Hl & ->)
          |(m & n & e & p & msg & _ & _ & _ & _ & _ & _ & _ & _ & _ & ->)]];
      simpl; auto.
  - destruct (get_contacts_cases env w)
      as [(_ & _ & _ & ->) | (e & w1 & _ & _ & Hl & ->)]; simpl; auto.
    right. rewrite <- app_assoc. reflexivity.
Qed.

(** X4: list-contacts never writes: the table and the next identifier are
    as before; it answers 200 exactly when the pool exists and neither the
    acquire nor the select fails, and 500 otherwise. *)
Theorem get_contacts_read_only env w :
  let r := fst (get_contacts env w) in
  let w' := snd (get_contacts env w) in
  contacts w' = contacts w
  /\ auto_increment w' = auto_increment w
  /\ (status r = 200%Z \/ r = internal_server_error)
  /\ (status r = 200%Z
      <-> pool_created w = true /\ acquire_error env = None
          /\ execute_error env = None).
Proof.
  destruct (get_contacts_cases env w)
    as [(Hpool & Hacq & Hexe & ->) | (e & w1 & Hfail & _ & _ & ->)];
    simpl.
  - unfold status. simpl. repeat split; auto.
  - unfold status. simpl. repeat split; auto; try discriminate.
    all: intros (Hpool & Hacq & Hexe);
      destruct Hfail as [H|[[d H]|[d H]]]; congruence.
Qed.

(** ** X5: a body that is not an object *)

(** X5: when the body parses to something that is not a JSON object (an
    array, a string, a number, a boolean, null), create-contact answers
    the generic 500; the table and the pool are untouched and the log
    gets the attribute error of [data.get]. *)
Theorem non_object_body_500 env data w :
  (forall m, data <> JObj m) ->
  create_contact env (Json data) w
  = ((ErrorBody "Internal server error", 500%Z),
     mkWorld (pool_created w) (contacts w) (auto_increment w) (pool_log w)
       (app_log w ++
        [ERROR ("Error creating contact: '" +:+ type_name data
                +:+ "' object has no attribute 'get'")])).
Proof.
  intros H. destruct data; try reflexivity. now destruct (H m).
Qed.

Lemma non_object_body_500_witness :
  create_contact env0 (Json (JArr [JStr "Jo"])) world0
  = ((ErrorBody "Internal server error", 500%Z),
     mkWorld true [] 1 []
       [ERROR "Error creating contact: 'list' object has no attribute 'get'"]).
Proof.
  apply (non_object_body_500 env0 (JArr [JStr "Jo"]) world0).
  intros m. discriminate.
Defined.

(** ** X6: what is logged *)

(** X6: a 400 answer writes nothing to the log; a 201 answer writes one
    INFO line that carries the identifier of the answer; a 500 answer
    writes one ERROR line that carries the text of the exception raised
    in the [try] block. *)
Theorem create_contact_log env b w :
  let r := fst (create_contact env b w) in
  let w' := snd (create_contact env b w) in
  (status r = 400%Z /\ app_log w' = app_log w)
  \/ (exists i,
         r = (CreatedBody "Contact created successfully" i, 201%Z)
         /\ app_log w'
            = app_log w ++ [INFO ("Contact created with ID: " +:+ pretty i)])
  \/ (exists e w1,
         create_contact_try env b w = (Raise e, w1)
         /\ r = internal_server_error
         /\ app_log w'
            = app_log w ++
              [ERROR ("Error creating contact: " +:+ exn_str e)]).
Proof.
  destruct (create_contact_cases env b w)
    as [(r & data & _ & _ & H400 & ->)
       |[(e & w1 & Htry & _ & ->)
        |(m & n & e & p & msg & _ & _ & _ & _ & _ & _ & _ & _ & _ & ->)]];
    simpl.
  - left. auto.
  - right; right. exists e, w1. auto.
  - right; left. eexists. split; reflexivity.
Qed.

(** ** X7, X8: the keys that are read *)

Lemma first_missing_agree (m1 m2 : gmap string json) :
  (forall f, In f required_fields -> m1 !! f = m2 !! f) ->
  first_missing m1 = first_missing m2.
Proof.
  intros H. unfold first_missing, required_fields, missing in *. simpl.
  rewrite !(H "name"), !(H "email"), !(H "message") by (simpl; tauto).
  reflexivity.
Qed.

Lemma validate_agree (m1 m2 : gmap string json) w :
  (forall f, In f required_fields -> m1 !! f = m2 !! f) ->
  validate (JObj m1) w = validate (JObj m2) w.
Proof.
  intros H. rewrite !validate_dict, (first_missing_agree m1 m2 H).
  rewrite (H "email") by (simpl; tauto). reflexivity.
Qed.

(** X7: validation reads [name], [email] and [message] only: two objects
    that agree on these three keys get the same verdict, so [phone] may be
    there or not and hold anything. *)
Theorem validate_reads_required_only (m1 m2 : gmap string json) w :
  (forall f, In f required_fields -> m1 !! f = m2 !! f) ->
  validate (JObj m1) w = validate (JObj m2) w.
Proof. exact (validate_agree m1 m2 w). Qed.

Lemma validate_reads_required_only_witness :
  validate (JObj (<["phone" := JNull]> jo)) world0
  = validate (JObj (delete "phone" jo)) world0.
Proof.
  apply (validate_reads_required_only
           (<["phone" := JNull]> jo) (delete "phone" jo) world0).
  simpl. intros f [<-|[<-|[<-|[]]]]; vm_compute; reflexivity.
Defined.

Lemma store_contact_agree env (m1 m2 : gmap string json) w :
  (forall f, In f ["name"; "email"; "phone"; "message"] ->
             m1 !! f = m2 !! f) ->
  store_contact env (JObj m1) w = store_contact env (JObj m2) w.
Proof.
  intros H.
  unfold store_contact, insert_contact, bind, py_get, py_get_default, ret.
  rewrite (H "email") by (simpl; tauto). f_equal.
  unfold with_connection.
  rewrite (H "name"), (H "phone"), (H "message") by (simpl; tauto).
  reflexivity.
Qed.

(** X8: create-contact reads the keys [name], [email], [phone] and
    [message] of the object and no other: two submissions that agree on
    these four keys get the same answer and leave the same world. *)
Theorem create_contact_reads_four_keys env (m1 m2 : gmap string json) w :
  (forall f, In f ["name"; "email"; "phone"; "message"] ->
             m1 !! f = m2 !! f) ->
  create_contact env (Json (JObj m1)) w
  = create_contact env (Json (JObj m2)) w.
Proof.
  intros H. unfold create_contact.
  rewrite !create_contact_try_validate.
  rewrite (validate_agree m1 m2 w), (store_contact_agree env m1 m2 w H).
  - reflexivity.
  - intros f Hf. apply H. simpl in *. tauto.
Qed.

Lemma create_contact_reads_four_keys_witness :
  create_contact env0 (Json (JObj (<["company" := JInt 7]> jo))) world0
  = create_contact env0 (Json (JObj jo)) world0.
Proof.
  apply (create_contact_reads_four_keys env0
           (<["company" := JInt 7]> jo) jo world0).
  simpl. intros f [<-|[<-|[<-|[<-|[]]]]]; vm_compute; reflexivity.
Defined.

(** ** Facts about [strip], [lower] and [in] *)

Lemma is_space_lower_char c : Str.is_space (Str.lower_char c) = Str.is_space c.
Proof. destruct c as [[] [] [] [] [] [] [] []]; reflexivity. Qed.

Lemma lower_char_idem c :
  Str.lower_char (Str.lower_char c) = Str.lower_char c.
Proof. destruct c as [[] [] [] [] [] [] [] []]; reflexivity. Qed.

Lemma lower_idem s : Str.lower (Str.lower s) = Str.lower s.
Proof.
  induction s as [|c s IH]; simpl; [reflexivity|].
  now rewrite lower_char_idem, IH.
Qed.

Lemma lstrip_lower s : Str.lstrip (Str.lower s) = Str.lower (Str.lstrip s).
Proof.
  induction s as [|c s IH]; simpl; [reflexivity|].
  rewrite is_space_lower_char. destruct (Str.is_space c); [exact IH|reflexivity].
Qed.

Lemma rstrip_lower s : Str.rstrip (Str.lower s) = Str.lower (Str.rstrip s).
Proof.
  induction s as [|c s IH]; simpl; [reflexivity|].
  rewrite IH, is_space_lower_char.
  destruct (Str.rstrip s); simpl; [|reflexivity].
  destruct (Str.is_space c); reflexivity.
Qed.

Lemma strip_lower s : Str.strip (Str.lower s) = Str.lower (Str.strip s).
Proof. unfold Str.strip. now rewrite lstrip_lower, rstrip_lower. Qed.

Lemma lstrip_starts_clean s : starts_clean (Str.lstrip s).
Proof.
  induction s as [|c s IH]; simpl; [exact I|].
  destruct (Str.is_space c) eqn:E; [exact IH|exact E].
Qed.

Lemma lstrip_clean s : starts_clean s -> Str.lstrip s = s.
Proof. destruct s as [|c s]; simpl; [reflexivity|]. now intros ->. Qed.

Lemma rstrip_starts_clean s : starts_clean s -> starts_clean (Str.rstrip s).
Proof.
  destruct s as [|c s]; simpl; [exact id|]. intros Hc.
  destruct (Str.rstrip s); [rewrite Hc|]; exact Hc.
Qed.

Lemma rstrip_idem s : Str.rstrip (Str.rstrip s) = Str.rstrip s.
Proof.
  induction s as [|c s IH]; simpl; [reflexivity|].
  destruct (Str.rstrip s) as [|d r] eqn:E.
  - destruct (Str.is_space c) eqn:Hc; simpl; [reflexivity|now rewrite Hc].
  - change (Str.rstrip (String c (String d r)) = String c (String d r)).
    simpl in IH |- *. destruct (Str.rstrip r); rewrite IH; reflexivity.
Qed.

Lemma strip_idem s : Str.strip (Str.strip s) = Str.strip s.
Proof.
  unfold Str.strip.
  rewrite (lstrip_clean (Str.rstrip (Str.lstrip s))).
  - apply rstrip_idem.
  - apply rstrip_starts_clean, lstrip_starts_clean.
Qed.

Lemma contains_char a s :
  Str.contains (String a EmptyString) s = true <-> In a (chars s).
Proof.
  induction s as [|b s IH]; simpl; [intuition discriminate|].
  destruct (ascii_dec a b) as [->|Hne].
  - destruct s; simpl; tauto.
  - simpl. rewrite IH. intuition congruence.
Qed.

Lemma chars_lstrip a s :
  Str.is_space a = false -> In a (chars s) -> In a (chars (Str.lstrip s)).
Proof.
  intros Ha. induction s as [|c s IH]; simpl; [tauto|].
  intros [->|Hin].
  - rewrite Ha. simpl. auto.
  - destruct (Str.is_space c); simpl; auto.
Qed.

Lemma chars_rstrip a s :
  Str.is_space a = false -> In a (chars s) -> In a (chars (Str.rstrip s)).
Proof.
  intros Ha. induction s as [|c s IH]; simpl; [tauto|].
  intros [->|Hin].
  - destruct (Str.rstrip s); [rewrite Ha|]; simpl; auto.
  - specialize (IH Hin). destruct (Str.rstrip s); simpl in *; tauto.
Qed.

Lemma chars_lower a s :
  In a (chars s) -> In (Str.lower_char a) (chars (Str.lower s)).
Proof.
  induction s as [|c s IH]; simpl; [tauto|].
  intros [->|Hin]; auto.
Qed.

(** A character that is no white space and that [lower] keeps, such as
    "@" and ".", is still there after [strip] and [lower]. *)
Lemma contains_normalized a s :
  Str.is_space a = false -> Str.lower_char a = a ->
  Str.contains (String a EmptyString) s = true ->
  Str.contains (String a EmptyString) (Str.lower (Str.strip s)) = true.
Proof.
  intros Ha Hl H. apply contains_char. rewrite <- Hl.
  apply chars_lower. unfold Str.strip.
  apply chars_rstrip, chars_lstrip, contains_char; assumption.
Qed.

(** ** X9, X10, X11: what holds of the table over a run *)

(** One request leaves the table alone or appends one row written by the
    handler. *)
Lemma serve_table env req w :
  (contacts (snd (serve env req w)) = contacts w
   /\ auto_increment (snd (serve env req w)) = auto_increment w)
  \/ (exists n e p msg,
         Str.contains "@" e = true /\ Str.contains "." e = true
         /\ contacts (snd (serve env req w))
            = contacts w ++
              [Row.mk (auto_increment w) (Str.strip n)
                      (Str.lower (Str.strip e)) (Str.strip p)
                      (Str.strip msg) (now env)]
         /\ auto_increment (snd (serve env req w))
            = (auto_increment w + 1)%Z).
Proof.
  destruct req as [b|]; simpl.
  - destruct (create_contact_cases env b w)
      as [(r & data & _ & _ & _ & ->)
         |[(e & w1 & _ & _ & ->)
          |(m & n & e & p & msg & _ & Hval & _ & He & _ & _ & _ & _ & _
            & ->)]];
      simpl; auto.
    right. exists n, e, p, msg.
    rewrite validate_dict in Hval.
    destruct (first_missing m); [discriminate|].
    rewrite He in Hval. simpl in Hval. rewrite validate_email_str in Hval.
    destruct (lacks_one e) eqn:Hl; [discriminate|].
    unfold lacks_one in Hl. apply orb_false_elim in Hl as [Hat Hdot].
    apply negb_false_iff in Hat, Hdot. auto.
  - destruct (get_contacts_cases env w)
      as [(_ & _ & _ & ->) | (e & w1 & _ & _ & _ & ->)]; simpl; auto.
Qed.

Lemma run_snoc reqs er w :
  run (reqs ++ [er]) w = snd (serve er.1 er.2 (run reqs w)).
Proof. unfold run. rewrite foldl_snoc. reflexivity. Qed.


Lemma ids_step env req w :
  ids_below_next w -> ids_increasing (contacts w) ->
  ids_below_next (snd (serve env req w))
  /\ ids_increasing (contacts (snd (serve env req w))).
Proof.
  unfold ids_below_next, ids_increasing. intros Hb Hi.
  destruct (serve_table env req w)
    as [[-> ->] | (n & e & p & msg & _ & _ & -> & ->)]; [auto|].
  split.
  - apply List.Forall_app. split.
    + eapply List.Forall_impl; [|exact Hb]. simpl. intros; lia.
    + repeat constructor. simpl. lia.
  - clear -Hb Hi. induction Hi as [|x l Hs IH Hx]; simpl.
    + repeat constructor.
    + apply Forall_cons_iff in Hb as [Hx0 Hb].
      constructor; [exact (IH Hb)|].
      apply List.Forall_app. split; [exact Hx|].
      repeat constructor. simpl. exact Hx0.
Qed.

Lemma ids_increasing_NoDup l : ids_increasing l -> NoDup (map Row.id l).
Proof.
  induction 1 as [|x l Hs IH Hx]; simpl; constructor; [|exact IH].
  rewrite list_elem_of_In, in_map_iff. intros (y & Heq & Hy).
  pose proof (proj1 (List.Forall_forall _ _) Hx y Hy) as Hlt.
  simpl in Hlt. lia.
Qed.

(** X10: identifiers are never given twice. If every [id] of the table is
    below the next one to be given and the [id]s increase in insertion
    order, the same holds after any run of requests; the [id]s of the
    table are then pairwise distinct. *)
Theorem ids_stay_unique reqs w :
  ids_below_next w -> ids_increasing (contacts w) ->
  ids_below_next (run reqs w)
  /\ ids_increasing (contacts (run reqs w))
  /\ NoDup (map Row.id (contacts (run reqs w))).
Proof.
  intros Hb Hi.
  enough (ids_below_next (run reqs w)
          /\ ids_increasing (contacts (run reqs w))) as [H1 H2].
  { auto using ids_increasing_NoDup. }
  induction reqs as [|er reqs IH] using rev_ind; [auto|].
  rewrite run_snoc. destruct IH. now apply ids_step.
Qed.

Lemma ids_stay_unique_witness :
  ids_below_next
    (run [(env0, POST_api_contact (Json (JObj jo)));
          (env0, GET_api_contacts);
          (env0, POST_api_contact (Json (JObj no_dot)));
          (env0, POST_api_contact (Json (JObj blank_name)))] world3)
  /\ ids_increasing
       (contacts
          (run [(env0, POST_api_contact (Json (JObj jo)));
                (env0, GET_api_contacts);
                (env0, POST_api_contact (Json (JObj no_dot)));
                (env0, POST_api_contact (Json (JObj blank_name)))] world3))
  /\ NoDup
       (map Row.id
          (contacts
             (run [(env0, POST_api_contact (Json (JObj jo)));
                   (env0, GET_api_contacts);
                   (env0, POST_api_contact (Json (JObj no_dot)));
                   (env0, POST_api_contact (Json (JObj blank_name)))]
                  world3))).
Proof.
  apply ids_stay_unique.
  - unfold ids_below_next. simpl. repeat constructor.
  - unfold ids_increasing. simpl. repeat constructor.
Defined.

Lemma normalized_written n e p msg i t :
  Str.contains "@" e = true -> Str.contains "." e = true ->
  normalized (Row.mk i (Str.strip n) (Str.lower (Str.strip e))
                     (Str.strip p) (Str.strip msg) t).
Proof.
  intros Hat Hdot. unfold normalized, trimmed. simpl.
  rewrite !strip_idem, strip_lower, strip_idem, lower_idem.
  repeat split; apply contains_normalized; auto.
Qed.

(** X11: every row the handler writes is in normal form: [name], [email],
    [phone] and [message] have no white space at either end, and the
    email is in lower case and has "@" and ".". A table whose rows are in
    normal form stays so over any run of requests. *)
Theorem rows_stay_normalized reqs w :
  List.Forall normalized (contacts w) ->
  List.Forall normalized (contacts (run reqs w)).
Proof.
  intros H. induction reqs as [|er reqs IH] using rev_ind; [exact H|].
  rewrite run_snoc.
  destruct (serve_table er.1 er.2 (run reqs w))
    as [[-> _] | (n & e & p & msg & Hat & Hdot & -> & _)]; [exact IH|].
  apply List.Forall_app. split; [exact IH|].
  constructor; [|constructor]. now apply normalized_written.
Qed.

Lemma rows_stay_normalized_witness :
  List.Forall normalized
    (contacts (run [(env0, POST_api_contact (Json (JObj jo)));
                    (env0, POST_api_contact (Json (JObj blank_name)))]
                   world0)).
Proof.
  apply rows_stay_normalized. constructor.
Defined.

(** ** X12: a stored contact is listed *)

(** X12: after create-contact answered 201 with identifier [i], a
    list-contacts call that the pool and the database serve answers 200
    with every row that was in the table before and the new row, whose
    [id] is [i] and whose time is that of the create request. *)
Theorem created_contact_is_listed env env' b w t i :
  fst (create_contact env b w) = (CreatedBody t i, 201%Z) ->
  acquire_error env' = None ->
  execute_error env' = None ->
  exists rows r,
    fst (get_contacts env' (snd (create_contact env b w)))
    = (ContactsBody rows (Z.of_nat (length rows)), 200%Z)
    /\ Permutation (contacts w ++ [r]) rows
    /\ In r rows
    /\ Row.id r = i
    /\ Row.created_at r = now env.
Proof.
  intros H Hacq Hexe.
  destruct (create_contact_cases env b w)
    as [(r & data & _ & _ & H400 & Hc)
       |[(e & w1 & _ & _ & Hc)
        |(m & n & e & p & msg & _ & _ & _ & _ & _ & _ & _ & _ & _ & Hc)]];
    rewrite Hc in H |- *; simpl in H |- *.
  - subst r. discriminate.
  - discriminate.
  - injection H as _ <-.
    rewrite get_contacts_served by (reflexivity || assumption). simpl.
    eexists _, _. split; [reflexivity|].
    pose proof (order_by_created_at_desc_perm
                  (contacts w ++
                   [Row.mk (auto_increment w) (Str.strip n)
                           (Str.lower (Str.strip e)) (Str.strip p)
                           (Str.strip msg) (now env)])) as Hperm.
    split; [exact Hperm|]. split; [|split; reflexivity].
    eapply Permutation_in; [exact Hperm|].
    apply in_or_app. right. simpl. auto.
Qed.

Lemma created_contact_is_listed_witness :
  exists rows r,
    fst (get_contacts env0 (snd (create_contact env0 (Json (JObj jo)) world3)))
    = (ContactsBody rows (Z.of_nat (length rows)), 200%Z)
    /\ Permutation (contacts world3 ++ [r]) rows
    /\ In r rows
    /\ Row.id r = 4%Z
    /\ Row.created_at r = now env0.
Proof.
  apply (created_contact_is_listed env0 env0 (Json (JObj jo)) world3
           "Contact created successfully" 4); reflexivity.
Defined.

(** ** X13, X14, X15: startup *)



(** X14: when startup fails, the exception that comes out is the one that
    was raised inside, the rows are untouched, and the last line of the
    log is the ERROR "Failed to create database pool: ..." with the text
    of that exception, also when it was the table statement that failed.
    If the pool could not be created the global is as it was; if the
    failure came later the pool stays assigned. *)
Theorem startup_failure pool_error env w e w' :
  startup pool_error env w = (Raise e, w') ->
  contacts w' = contacts w
  /\ auto_increment w' = auto_increment w
  /\ (exists l,
         app_log w'
         = app_log w ++ l ++
           [ERROR ("Failed to create database pool: " +:+ exn_str e)])
  /\ (forall d, pool_error = Some d ->
                e = PoolError d /\ pool_created w' = pool_created w
                /\ pool_log w' = pool_log w)
  /\ (pool_error = None ->
      pool_created w' = true
      /\ (is_Some (acquire_error env) \/ is_Some (execute_error env))).
Proof.
  unfold startup, init_db_pool, bind, create_pool, logger, create_table,
    with_connection, execute_create_table.
  destruct pool_error as [d|]; simpl.
  - intros [= <- <-]. simpl.
    split; [reflexivity|]. split; [reflexivity|].
    split; [exists []; reflexivity|].
    split; [intros d0 [= <-]; auto | discriminate].
  - destruct (acquire_error env) as [d|] eqn:Hacq; simpl.
    + intros [= <- <-]. simpl.
      split; [reflexivity|]. split; [reflexivity|].
      split; [eexists [_]; rewrite <- app_assoc; reflexivity|].
      split; [discriminate|]. intros _. split; [reflexivity|]. left; eauto.
    + destruct (execute_error env) as [d|] eqn:Hexe; simpl.
      * intros [= <- <-]. simpl.
        split; [reflexivity|]. split; [reflexivity|].
        split; [eexists [_]; rewrite <- app_assoc; reflexivity|].
        split; [discriminate|]. intros _. split; [reflexivity|].
        right; eauto.
      * discriminate.
Qed.

Lemma startup_failure_witness :
  contacts (mkWorld true [] 1 [Acquire; Release]
              [INFO "Database connection pool created successfully";
               ERROR "Failed to create database pool: Access denied"])
  = contacts (mkWorld false [] 1 [] [])
  /\ auto_increment
       (mkWorld true [] 1 [Acquire; Release]
          [INFO "Database connection pool created successfully";
           ERROR "Failed to create database pool: Access denied"])
     = auto_increment (mkWorld false [] 1 [] [])
  /\ (exists l,
         app_log
           (mkWorld true [] 1 [Acquire; Release]
              [INFO "Database connection pool created successfully";
               ERROR "Failed to create database pool: Access denied"])
         = app_log (mkWorld false [] 1 [] []) ++ l ++
           [ERROR ("Failed to create database pool: "
                   +:+ exn_str (DatabaseError "Access denied"))])
  /\ (forall d, None = Some d ->
                DatabaseError "Access denied" = PoolError d
                /\ pool_created
                     (mkWorld true [] 1 [Acquire; Release]
                        [INFO "Database connection pool created successfully";
                         ERROR "Failed to create database pool: Access denied"])
                   = pool_created (mkWorld false [] 1 [] [])
                /\ pool_log
                     (mkWorld true [] 1 [Acquire; Release]
                        [INFO "Database connection pool created successfully";
                         ERROR "Failed to create database pool: Access denied"])
                   = pool_log (mkWorld false [] 1 [] []))
  /\ (@None string = None ->
      pool_created
        (mkWorld true [] 1 [Acquire; Release]
           [INFO "Database connection pool created successfully";
            ERROR "Failed to create database pool: Access denied"])
      = true
      /\ (is_Some (acquire_error (mkEnv 0 None (Some "Access denied")))
          \/ is_Some (execute_error (mkEnv 0 None (Some "Access denied"))))).
Proof.
  apply (startup_failure None (mkEnv 0 None (Some "Access denied"))
           (mkWorld false [] 1 [] [])).
  vm_compute. reflexivity.
Defined.



(** ** X16: what [strip] takes away *)



